(** * Network stability monitor: a shallow embedding of [nsm.py]

    The monitor cycles over DNS resolver pairs, runs one cheap DNS lookup per
    iteration, corroborates a failed lookup with a battery of ICMP and HTTP
    probes ([deep_check]) and tracks the outage in [start_of_failure].

    Conventions of the embedding:
    - Python [float] and [int] values that take part in arithmetic are exact
      rationals ([Q]); the configured constants ([1.0], [1], [25 / 100]) are
      exactly representable in binary floating point.
    - Python truthiness is written out ([py_not_answer], [truthy_time],
      [truthy]): [if x:] is not the same test as [x is not None].
    - What the operating system and the network answer (the DNS reply, the
      exit status of the [ping] binary, what the HTTP worker puts on its queue,
      the readings of [time.time()]) is an explicit input of each iteration.
    - [logger] calls of [main] are collected in a list of [log_record]s; the
      logging inside [deep_check] and the probes is not observed by any
      property below and is left out. *)

From Stdlib Require Import QArith ZArith List String Bool Permutation Sorted Lia.
Import ListNotations.
Open Scope Q_scope.

(** ** Python comparisons on numbers *)

(** [a > b] *)
Definition Qgt_bool (a b : Q) : bool := negb (Qle_bool a b).

(** [a < b] *)
Definition Qlt_bool (a b : Q) : bool := negb (Qle_bool b a).

(** An [int] used in float arithmetic. *)
Definition of_int (n : nat) : Q := inject_Z (Z.of_nat n).

(** ** Configuration *)

Record Config : Type := {
  MONITORING_INTERVAL : Q;
  TIMEOUT : Q;
  OUTAGE_THRESHOLD : Q;
  DNS_PAIRS : list (string * string);
  ICMP_TARGETS : list (string * string);
  WEB_TARGETS : list string
}.

(** The values of [class Config]. *)
Definition config : Config := {|
  MONITORING_INTERVAL := 1;
  TIMEOUT := 1;
  OUTAGE_THRESHOLD := 25 / 100;
  DNS_PAIRS := [
    ("1.0.0.1", "one.one.one.one");
    ("8.8.4.4", "dns.google");
    ("208.67.222.123", "familyshield.opendns.com");
    ("149.112.112.112", "dns.quad9.net");
    ("94.140.14.141", "unfiltered.adguard-dns.com") ]%string;
  ICMP_TARGETS := [
    ("www.google.com", "Google");
    ("www.amazon.com", "Amazon");
    ("www.microsoft.com", "Microsoft");
    ("192.168.1.1", "Local Network Gateway");
    ("100.64.1.1", "ISP Node");
    ("100.127.255.1", "ISP Uplink Tier") ]%string;
  WEB_TARGETS := [
    "http://www.google.com/";
    "http://www.amazon.com/";
    "http://www.gvtc.com/";
    "http://www.microsoft.com/";
    "http://www.rodneybeede.com/" ]%string
|}.

(** ** The probes *)

(** What [subprocess.run] of the [ping] binary does: the child exits with a
    return code, or it is still running at [timeout * 1.25] and
    [TimeoutExpired] is raised. *)
Inductive completed_process : Type :=
| Exited (returncode : Z)
| TimeoutExpired.

(** A [requests] response, as far as [website_alive] looks at it.  Its truth
    value is [Response.ok]: the status is not a 4xx or 5xx error. *)
Record Response : Type := {
  status_code : Z;
  headers : list (string * string)
}.

Definition ok (r : Response) : bool :=
  negb ((400 <=? status_code r)%Z && (status_code r <? 600)%Z).

(** What [session.head] does inside the worker process. *)
Inductive head_result : Type :=
| Head_response (r : Response)
| Head_exception.

(** What the worker puts on the queue: [False] or the response. *)
Inductive queue_item : Type :=
| Item_False
| Item_response (r : Response).

(** The Python values [website_alive] can return. *)
Inductive py_value : Type :=
| V_False
| V_response (r : Response)
| V_headers (h : list (string * string)).

Definition truthy (v : py_value) : bool :=
  match v with
  | V_False => false
  | V_response r => ok r
  | V_headers h => match h with [] => false | _ :: _ => true end
  end.

(** The network as seen by one deep check: for each target, how the [ping]
    child ends under the given [subprocess] timeout, and whether the HTTP
    worker has finished when [process.join(timeout)] returns ([None]: it is
    still alive) and with which outcome of [session.head]. *)
Record network : Type := {
  subprocess_run_ping : string -> Q -> completed_process;
  timed_request : string -> Q -> option head_result
}.

Definition ping (net : network) (target : string) (timeout : Q) : bool :=
  match subprocess_run_ping net target (timeout * (125 # 100)) with
  | TimeoutExpired => false
  | Exited returncode => (returncode =? 0)%Z
  end.

Definition website_alive_helper (h : head_result) : queue_item :=
  match h with
  | Head_exception => Item_False
  | Head_response response => Item_response response
  end.

(** [response and response.headers] *)
Definition response_and_headers (response : queue_item) : py_value :=
  match response with
  | Item_False => V_False
  | Item_response r => if ok r then V_headers (headers r) else V_response r
  end.

Definition website_alive (net : network) (url : string) (timeout : Q) : py_value :=
  match timed_request net url timeout with
  | None => V_False
  | Some h => response_and_headers (website_alive_helper h)
  end.

(** ** The deep check *)

Record DeepCheckOutcome : Type := {
  totalChecks : nat;
  failures : nat;
  isOutage : bool
}.

(** The first loop of [deep_check]. *)
Definition count_icmp_failures (net : network) (timeout : Q)
    (targets : list (string * string)) (number_failures : nat) : nat :=
  fold_left
    (fun number_failures target =>
       if negb (ping net (fst target) timeout)
       then number_failures + 1 else number_failures)%nat
    targets number_failures.

(** The second loop of [deep_check]. *)
Definition count_web_failures (net : network) (timeout : Q)
    (targets : list string) (number_failures : nat) : nat :=
  fold_left
    (fun number_failures target =>
       if truthy (website_alive net target timeout)
       then number_failures else number_failures + 1)%nat
    targets number_failures.

(** [number_failures > number_total_checks_made * threshold] *)
Definition exceeds_threshold (number_failures number_total_checks_made : nat)
    (threshold : Q) : bool :=
  Qgt_bool (of_int number_failures)
           (of_int number_total_checks_made * threshold).

Definition deep_check_outcome (cfg : Config) (net : network) : DeepCheckOutcome :=
  let number_total_checks_made :=
    (List.length (ICMP_TARGETS cfg) + List.length (WEB_TARGETS cfg))%nat in
  let number_failures := 0%nat in
  let number_failures :=
    count_icmp_failures net (TIMEOUT cfg) (ICMP_TARGETS cfg) number_failures in
  let number_failures :=
    count_web_failures net (TIMEOUT cfg) (WEB_TARGETS cfg) number_failures in
  {| totalChecks := number_total_checks_made;
     failures := number_failures;
     isOutage := exceeds_threshold number_failures number_total_checks_made
                   (OUTAGE_THRESHOLD cfg) |}.

Definition deep_check (cfg : Config) (net : network) : bool :=
  isOutage (deep_check_outcome cfg net).

(** ** The monitoring loop *)

(** The errors [Resolver.resolve] raises. *)
Inductive dns_exception : Type :=
| LifetimeTimeout
| NoNameservers
| NXDOMAIN
| YXDOMAIN
| NoAnswer.

(** What [dns_client.resolve] does: it returns an answer (the records of its
    rrset) or raises. *)
Inductive resolve_result : Type :=
| Answer (rrset : list string)
| Raises (e : dns_exception).

(** [except (dns.resolver.LifetimeTimeout, dns.resolver.NoNameservers)] *)
Definition caught (e : dns_exception) : bool :=
  match e with
  | LifetimeTimeout | NoNameservers => true
  | NXDOMAIN | YXDOMAIN | NoAnswer => false
  end.

Inductive log_record : Type :=
| Debug_interval_check (dns_pair : string * string)
| Debug_exception (e : dns_exception)
| Warning_failed_to_resolve (dns_pair : string * string)
| Debug_already_down
| Error_new_outage
| Debug_false_alarm
| Info_saw_recovery
| Info_duration (outage_duration_seconds : Q)
| Debug_test_passed (dns_pair : string * string) (answer : list string)
| Debug_time_taken (time_taken : Q)
| Debug_sleeping.

(** The [try] statement around the lookup: the value of [answer] ([None]
    after a caught error) with what was logged, or the error that leaves
    [main]. *)
Definition try_resolve (r : resolve_result)
  : dns_exception + (option (list string) * list log_record) :=
  match r with
  | Answer rrset => inr (Some rrset, [])
  | Raises e => if caught e then inr (None, [Debug_exception e]) else inl e
  end.

(** [not answer]: [None] and an answer without records are falsy. *)
Definition py_not_answer (answer : option (list string)) : bool :=
  match answer with
  | None => true
  | Some [] => true
  | Some (_ :: _) => false
  end.

(** The variables [main] keeps across iterations. *)
Record state : Type := {
  start_of_failure : option Q;
  last_success : option Q
}.

Definition initial : state :=
  {| start_of_failure := None; last_success := None |}.

(** [if start_of_failure:], the truth value of [None] or a float. *)
Definition truthy_time (t : option Q) : bool :=
  match t with
  | None => false
  | Some x => negb (Qeq_bool x 0)
  end.

(** What one iteration reads from outside: the three readings of
    [time.time()] (at the top, in the branch taken, at the bottom), the
    outcome of the lookup and the network the deep check sees. *)
Record readings : Type := {
  loop_start : Q;
  resolved : resolve_result;
  net_now : network;
  now : Q;
  loop_end : Q
}.

(** Lines 128 to 133: the pause after an iteration, if any. *)
Definition time_to_sleep (cfg : Config) (time_taken : Q) : option Q :=
  if Qlt_bool time_taken (MONITORING_INTERVAL cfg)
  then Some (MONITORING_INTERVAL cfg - time_taken)
  else None.

(** The [if not answer: ... else: ...] statement: the new state and what is
    logged. *)
Definition update (cfg : Config) (dns_pair : string * string) (r : readings)
    (answer : option (list string)) (st : state) : state * list log_record :=
  if py_not_answer answer then
    if deep_check cfg (net_now r) then
      if truthy_time (start_of_failure st) then
        (st, [Warning_failed_to_resolve dns_pair; Debug_already_down])
      else
        ({| start_of_failure := Some (now r); last_success := last_success st |},
         [Warning_failed_to_resolve dns_pair; Error_new_outage])
    else
      (st, [Warning_failed_to_resolve dns_pair; Debug_false_alarm])
  else
    let last_success := now r in
    let recovery :=
      match start_of_failure st with
      | Some started =>
          if truthy_time (Some started)
          then [Info_saw_recovery; Info_duration (last_success - started)]
          else []
      | None => []
      end in
    ({| start_of_failure := None; last_success := Some last_success |},
     recovery ++ [Debug_test_passed dns_pair
                    (match answer with Some rrset => rrset | None => [] end)]).

(** How one pass through the loop body ends. *)
Inductive iteration_result : Type :=
| Raised (e : dns_exception) (log : list log_record)
| Completed (st : state) (log : list log_record) (slept : option Q).

Definition iteration (cfg : Config) (dns_pair : string * string)
    (r : readings) (st : state) : iteration_result :=
  let log := [Debug_interval_check dns_pair] in
  match try_resolve (resolved r) with
  | inl e => Raised e log
  | inr (answer, logged) =>
      let (st', logged') := update cfg dns_pair r answer st in
      let time_taken := loop_end r - loop_start r in
      let slept := time_to_sleep cfg time_taken in
      Completed st'
        (log ++ logged ++ logged' ++ [Debug_time_taken time_taken]
             ++ match slept with Some _ => [Debug_sleeping] | None => [] end)
        slept
  end.

(** How [main] stands after a number of iterations: still in the loop, left
    by an error, or returned because [itertools.cycle] of an empty list is
    exhausted at once. *)
Inductive status : Type :=
| Looping (st : state)
| Crashed (e : dns_exception)
| Returned.

Record run_result : Type := {
  final : status;
  logged : list log_record;
  sleeps : list (option Q)
}.

(** [for dns_pair in itertools.cycle(config.DNS_PAIRS)]: the pair of the
    iteration numbered [i]. *)
Definition cycle (cfg : Config) (i : nat) : option (string * string) :=
  nth_error (DNS_PAIRS cfg) (i mod List.length (DNS_PAIRS cfg)).

(** The loop of [main] run on the readings of its first iterations. *)
Fixpoint loop (cfg : Config) (i : nat) (rs : list readings) (st : state)
  : run_result :=
  match cycle cfg i with
  | None => {| final := Returned; logged := []; sleeps := [] |}
  | Some dns_pair =>
      match rs with
      | [] => {| final := Looping st; logged := []; sleeps := [] |}
      | r :: rs' =>
          match iteration cfg dns_pair r st with
          | Raised e log => {| final := Crashed e; logged := log; sleeps := [] |}
          | Completed st' log slept =>
              let rest := loop cfg (S i) rs' st' in
              {| final := final rest;
                 logged := log ++ logged rest;
                 sleeps := slept :: sleeps rest |}
          end
      end
  end.

Definition main (cfg : Config) (rs : list readings) : run_result :=
  loop cfg 0 rs initial.

(** ** Vocabulary of the properties *)

(** The test of the first loop of [deep_check], and of the second. *)
Definition icmp_failed (net : network) (timeout : Q)
    (target : string * string) : bool :=
  negb (ping net (fst target) timeout).

Definition web_failed (net : network) (timeout : Q) (url : string) : bool :=
  negb (truthy (website_alive net url timeout)).

(** A target of either kind, and its probe. *)
Definition probe_failed (net : network) (timeout : Q)
    (target : string * string + string) : bool :=
  match target with
  | inl icmp => icmp_failed net timeout icmp
  | inr url => web_failed net timeout url
  end.

Definition all_targets (cfg : Config) : list (string * string + string) :=
  map inl (ICMP_TARGETS cfg) ++ map inr (WEB_TARGETS cfg).

(** The same configuration with other target lists. *)
Definition with_targets (cfg : Config) (icmp : list (string * string))
    (web : list string) : Config :=
  {| MONITORING_INTERVAL := MONITORING_INTERVAL cfg;
     TIMEOUT := TIMEOUT cfg;
     OUTAGE_THRESHOLD := OUTAGE_THRESHOLD cfg;
     DNS_PAIRS := DNS_PAIRS cfg;
     ICMP_TARGETS := icmp;
     WEB_TARGETS := web |}.

(** An outage is active when [main] takes the branch "already in downtime",
    "just saw recovery": [if start_of_failure:]. *)
Definition outage_active (st : state) : bool :=
  truthy_time (start_of_failure st).

(** [start_of_failure is not None] *)
Definition started_at_set (st : state) : bool :=
  match start_of_failure st with
  | Some _ => true
  | None => false
  end.

(** The fast probe failed: the lookup was answered by nothing usable. *)
Definition fast_probe_failed (r : resolve_result) : bool :=
  match try_resolve r with
  | inl _ => false
  | inr (answer, _) => py_not_answer answer
  end.

Definition fast_probe_succeeded (r : resolve_result) : bool :=
  match try_resolve r with
  | inl _ => false
  | inr (answer, _) => negb (py_not_answer answer)
  end.


(** "Outage ended" is logged only while an "outage began" is open: [open]
    tells whether one is open before the records of [log]. *)
Fixpoint ended_closes_began (open : bool) (log : list log_record) : bool :=
  match log with
  | [] => true
  | Error_new_outage :: log' => ended_closes_began true log'
  | Info_saw_recovery :: log' => open && ended_closes_began false log'
  | _ :: log' => ended_closes_began open log'
  end.

(** ** Concrete networks and readings *)

(** Nothing answers: every [ping] child runs into the [subprocess] timeout and
    every HTTP worker is still alive after [join]. *)
Definition unreachable : network :=
  {| subprocess_run_ping := fun _ _ => TimeoutExpired;
     timed_request := fun _ _ => None |}.

(** Everything answers. *)
Definition healthy : network :=
  {| subprocess_run_ping := fun _ _ => Exited 0;
     timed_request := fun _ _ =>
       Some (Head_response
               {| status_code := 200;
                  headers := [("Content-Type", "text/html")]%string |}) |}.

(** Only the local gateway answers its ping; HTTP requests raise. *)
Definition gateway_only : network :=
  {| subprocess_run_ping := fun target _ =>
       if String.eqb target "192.168.1.1" then Exited 0 else Exited 1;
     timed_request := fun _ _ => Some Head_exception |}.

(** An iteration during which the clock stands at [t]. *)
Definition reading_at (t : Q) (res : resolve_result) (net : network) : readings :=
  {| loop_start := t; resolved := res; net_now := net; now := t; loop_end := t |}.

(** An iteration that starts at [t0], reads the clock at [t] in its branch
    and ends at [t1]. *)
Definition reading_from (t0 t t1 : Q) (res : resolve_result) (net : network)
  : readings :=
  {| loop_start := t0; resolved := res; net_now := net; now := t; loop_end := t1 |}.

(** A small configuration: two ICMP targets and one HTTP target. *)
Definition small : Config :=
  with_targets config
    [("192.168.1.1", "Local Network Gateway"); ("www.google.com", "Google")]%string
    ["http://www.google.com/"]%string.

(** The durations reported by the "Duration of outage was" records. *)
Fixpoint durations (log : list log_record) : list Q :=
  match log with
  | [] => []
  | Info_duration d :: log' => d :: durations log'
  | _ :: log' => durations log'
  end.

(** How often a record that satisfies [p] was logged. *)
Definition logged_times (p : log_record -> bool) (log : list log_record) : nat :=
  List.length (filter p log).

Definition is_new_outage (l : log_record) : bool :=
  match l with Error_new_outage => true | _ => false end.

Definition is_recovery (l : log_record) : bool :=
  match l with Info_saw_recovery => true | _ => false end.

(** The lookup times out and nothing else answers either. *)
Definition outage_at (t : Q) : readings :=
  reading_at t (Raises LifetimeTimeout) unreachable.

(** The lookup is answered. *)
Definition answered_at (t : Q) : readings :=
  reading_at t (Answer ["1.1.1.1"%string]) healthy.


(** ** Vocabulary of the properties of the log *)

(** The pairs of the "Interval check using" records. *)
Fixpoint interval_checks (log : list log_record) : list (string * string) :=
  match log with
  | [] => []
  | Debug_interval_check dns_pair :: log' => dns_pair :: interval_checks log'
  | _ :: log' => interval_checks log'
  end.

(** The records that tell the life of an outage. *)
Definition is_event (l : log_record) : bool :=
  match l with
  | Error_new_outage | Info_saw_recovery | Info_duration _ => true
  | _ => false
  end.

Definition events (log : list log_record) : list log_record :=
  filter is_event log.

(** "New outage detected" and "Saw recovery" take turns: a new outage is
    logged only while none is open and a recovery only while one is. *)
Fixpoint alternates (open : bool) (log : list log_record) : bool :=
  match log with
  | [] => true
  | Error_new_outage :: log' => negb open && alternates true log'
  | Info_saw_recovery :: log' => open && alternates false log'
  | _ :: log' => alternates open log'
  end.

(** Whether an outage is open after the records of [log]. *)
Fixpoint open_after (open : bool) (log : list log_record) : bool :=
  match log with
  | [] => open
  | Error_new_outage :: log' => open_after true log'
  | Info_saw_recovery :: log' => open_after false log'
  | _ :: log' => open_after open log'
  end.

(** The same readings with another network behind the deep check. *)
Definition with_network (r : readings) (net : network) : readings :=
  {| loop_start := loop_start r;
     resolved := resolved r;
     net_now := net;
     now := now r;
     loop_end := loop_end r |}.

(** * Properties *)

(** ** Comparisons *)

Lemma Qgt_bool_iff (a b : Q) : Qgt_bool a b = true <-> b < a.
Proof.
  unfold Qgt_bool. rewrite negb_true_iff.
  split; intro H.
  - apply Qnot_le_lt. intro Hle. apply Qle_bool_iff in Hle. congruence.
  - destruct (Qle_bool a b) eqn:E; [ | reflexivity ].
    apply Qle_bool_iff in E. exfalso. exact (Qlt_not_le _ _ H E).
Qed.

Lemma Qlt_bool_iff (a b : Q) : Qlt_bool a b = true <-> a < b.
Proof. exact (Qgt_bool_iff b a). Qed.

Lemma Qlt_bool_false_iff (a b : Q) : Qlt_bool a b = false <-> b <= a.
Proof.
  unfold Qlt_bool. rewrite negb_false_iff. apply Qle_bool_iff.
Qed.


(** ** The deep check *)

Section Tally.
Context {A : Type} (failed : A -> bool).

Lemma fold_tally (l : list A) (n : nat) :
  fold_left (fun acc x => if failed x then acc + 1 else acc)%nat l n
  = (n + List.length (filter failed l))%nat.
Proof.
  revert n. induction l as [ | x l IH ]; intro n; simpl.
  - lia.
  - rewrite IH. destruct (failed x); simpl; lia.
Qed.

Lemma filter_length_perm [l l' : list A] :
  Permutation l l' ->
  List.length (filter failed l) = List.length (filter failed l').
Proof.
  induction 1 as [ | x l l' _ IH | x y l | l l' l'' _ IH1 _ IH2 ]; simpl.
  - reflexivity.
  - destruct (failed x); simpl; congruence.
  - destruct (failed x), (failed y); reflexivity.
  - congruence.
Qed.
End Tally.

Lemma count_icmp_failures_filter net timeout targets n :
  count_icmp_failures net timeout targets n
  = (n + List.length (filter (icmp_failed net timeout) targets))%nat.
Proof.
  unfold count_icmp_failures.
  exact (fold_tally (icmp_failed net timeout) targets n).
Qed.

Lemma count_web_failures_filter net timeout targets n :
  count_web_failures net timeout targets n
  = (n + List.length (filter (web_failed net timeout) targets))%nat.
Proof.
  unfold count_web_failures.
  rewrite <- (fold_tally (web_failed net timeout) targets n).
  revert n. induction targets as [ | url l IH ]; intro n; simpl.
  - reflexivity.
  - unfold web_failed at 2.
    destruct (truthy (website_alive net url timeout)); simpl; apply IH.
Qed.

(** [failures] is the number of probes that returned false. *)
Lemma failures_count cfg net :
  failures (deep_check_outcome cfg net)
  = List.length (filter (probe_failed net (TIMEOUT cfg)) (all_targets cfg)).
Proof.
  unfold deep_check_outcome, all_targets; simpl.
  rewrite count_web_failures_filter, count_icmp_failures_filter.
  rewrite filter_app, length_app. simpl. f_equal.
  - induction (ICMP_TARGETS cfg) as [ | x l IH ]; simpl; [ reflexivity | ].
    destruct (icmp_failed net (TIMEOUT cfg) x); simpl; congruence.
  - induction (WEB_TARGETS cfg) as [ | x l IH ]; simpl; [ reflexivity | ].
    destruct (web_failed net (TIMEOUT cfg) x); simpl; congruence.
Qed.

Lemma deep_check_unfold cfg net :
  deep_check cfg net
  = exceeds_threshold (failures (deep_check_outcome cfg net))
      (totalChecks (deep_check_outcome cfg net)) (OUTAGE_THRESHOLD cfg).
Proof. reflexivity. Qed.



(** C8: the outcome of [deep_check] (number of checks, number of failures,
    verdict) does not depend on the order of the ICMP and of the HTTP
    targets, and counting the failed probes in any order of all targets gives
    the same number of failures. *)
Theorem deep_check_order_independent (cfg : Config) (net : network)
    (icmp : list (string * string)) (web : list string)
    (order : list (string * string + string)) :
  Permutation icmp (ICMP_TARGETS cfg) ->
  Permutation web (WEB_TARGETS cfg) ->
  Permutation order (all_targets cfg) ->
  deep_check_outcome (with_targets cfg icmp web) net = deep_check_outcome cfg net
  /\ List.length (filter (probe_failed net (TIMEOUT cfg)) order)
     = failures (deep_check_outcome cfg net).
Proof.
  intros Hicmp Hweb Horder. split.
  - unfold deep_check_outcome; simpl.
    rewrite !count_web_failures_filter, !count_icmp_failures_filter.
    rewrite (Permutation_length Hicmp), (Permutation_length Hweb).
    rewrite (filter_length_perm (icmp_failed net (TIMEOUT cfg)) Hicmp).
    rewrite (filter_length_perm (web_failed net (TIMEOUT cfg)) Hweb).
    reflexivity.
  - rewrite failures_count. apply filter_length_perm, Horder.
Qed.

Lemma deep_check_order_independent_witness :
  let swapped :=
    [("www.google.com", "Google"); ("192.168.1.1", "Local Network Gateway")]%string in
  let order :=
    [inr "http://www.google.com/"; inl ("192.168.1.1", "Local Network Gateway");
     inl ("www.google.com", "Google")]%string in
  deep_check_outcome (with_targets small swapped (WEB_TARGETS small)) gateway_only
  = deep_check_outcome small gateway_only
  /\ List.length (filter (probe_failed gateway_only (TIMEOUT small)) order)
     = failures (deep_check_outcome small gateway_only).
Proof.
  intros swapped order.
  apply (deep_check_order_independent small gateway_only swapped
           (WEB_TARGETS small) order).
  - apply perm_swap.
  - apply Permutation_refl.
  - exact (Permutation_cons_append
             [inl ("192.168.1.1", "Local Network Gateway");
              inl ("www.google.com", "Google")]%string
             (inr "http://www.google.com/"%string)).
Defined.

(** ** The HTTP probe *)

(** C10: a HEAD check that finishes in time counts as a success only if the
    worker obtained a response with a non-empty header collection; a response
    with empty headers and a worker that reports an exception both count as
    failure. *)
Theorem website_alive_needs_headers (net : network) (url : string) (timeout : Q) :
  (truthy (website_alive net url timeout) = true ->
   exists r, timed_request net url timeout = Some (Head_response r)
             /\ headers r <> [])
  /\ (forall r, timed_request net url timeout = Some (Head_response r) ->
                headers r = [] ->
                truthy (website_alive net url timeout) = false)
  /\ (timed_request net url timeout = Some Head_exception ->
      truthy (website_alive net url timeout) = false).
Proof.
  unfold website_alive.
  destruct (timed_request net url timeout) as [ [ r | ] | ]; simpl.
  - repeat split.
    + destruct (ok r) eqn:Hok; simpl; intro H.
      * exists r. split; [ reflexivity | ].
        intro E. rewrite E in H. discriminate.
      * congruence.
    + intros r' E Hempty. injection E as <-.
      destruct (ok r) eqn:Hok; simpl.
      * rewrite Hempty. reflexivity.
      * exact Hok.
    + discriminate.
  - repeat split; try discriminate.
  - repeat split; discriminate.
Qed.

Lemma website_alive_needs_headers_witness :
  truthy (website_alive healthy "http://www.google.com/" 1) = true
  /\ exists r, timed_request healthy "http://www.google.com/"%string 1
               = Some (Head_response r)
               /\ headers r <> [].
Proof.
  split.
  - reflexivity.
  - apply (proj1 (website_alive_needs_headers healthy "http://www.google.com/" 1)).
    reflexivity.
Defined.

(** ** One iteration of the loop *)

(** Takes an iteration apart along the tests its body makes. *)
Ltac by_cases_of_iteration r st :=
  unfold iteration, update, fast_probe_failed, fast_probe_succeeded, try_resolve;
  destruct (resolved r) as [ [ | record rrset ] | [ | | | | ] ]; simpl;
  try destruct (deep_check _ (net_now r));
  try destruct (truthy_time (start_of_failure st)) eqn:?.

Lemma iteration_slept cfg dns_pair r st st' log slept :
  iteration cfg dns_pair r st = Completed st' log slept ->
  slept = time_to_sleep cfg (loop_end r - loop_start r).
Proof.
  unfold iteration.
  destruct (try_resolve (resolved r)) as [ e | [answer lg] ]; [ discriminate | ].
  destruct (update cfg dns_pair r answer st) as [st1 lg1].
  intro H. injection H as _ _ H. symmetry. exact H.
Qed.

Lemma iteration_raises cfg dns_pair r st e log :
  iteration cfg dns_pair r st = Raised e log ->
  resolved r = Raises e /\ caught e = false /\ log = [Debug_interval_check dns_pair].
Proof.
  unfold iteration, try_resolve.
  destruct (resolved r) as [ rrset | e' ].
  - destruct (update cfg dns_pair r (Some rrset) st). discriminate.
  - destruct (caught e') eqn:Hc.
    + destruct (update cfg dns_pair r None st). discriminate.
    + intro H. injection H as -> <-. auto.
Qed.

(** C2, as amended: a lookup that raises [LifetimeTimeout] or
    [NoNameservers] is a failed probe and the iteration completes; any other
    resolution error is not caught and leaves the iteration, and [main], as
    that error.  A loop whose lookups raise only the two caught errors never
    ends on a probe error. *)
Theorem caught_errors_are_failures_others_propagate :
  (forall e cfg dns_pair r st,
      resolved r = Raises e ->
      if caught e
      then fast_probe_failed (resolved r) = true
           /\ exists st' log slept,
               iteration cfg dns_pair r st = Completed st' log slept
      else iteration cfg dns_pair r st
           = Raised e [Debug_interval_check dns_pair])
  /\ (forall cfg rs e,
      final (main cfg rs) = Crashed e ->
      caught e = false /\ exists r, In r rs /\ resolved r = Raises e).
Proof.
  split.
  - intros e cfg dns_pair r st Hr.
    unfold iteration, fast_probe_failed, try_resolve. rewrite Hr.
    destruct (caught e).
    + split; [ reflexivity | ].
      destruct (update cfg dns_pair r None st) as [st1 lg1].
      eexists _, _, _. reflexivity.
    + reflexivity.
  - intros cfg rs. unfold main. generalize 0%nat, initial.
    induction rs as [ | r rs IH ]; intros i st e; simpl.
    + destruct (cycle cfg i); discriminate.
    + destruct (cycle cfg i) as [ dns_pair | ]; [ | discriminate ].
      destruct (iteration cfg dns_pair r st) as [ e' lg | st' lg slept ] eqn:Hit;
        simpl.
      * intro H. injection H as ->.
        apply iteration_raises in Hit. destruct Hit as (Hr & Hc & _).
        split; [ exact Hc | ]. exists r. auto.
      * intro H. apply IH in H. destruct H as (Hc & r' & Hin & Hr).
        split; [ exact Hc | ]. exists r'. auto.
Qed.

Lemma caught_errors_are_failures_others_propagate_witness :
  (fast_probe_failed (resolved (reading_at 7 (Raises NoNameservers) healthy)) = true
   /\ exists st' log slept,
       iteration config ("1.0.0.1", "one.one.one.one")%string
         (reading_at 7 (Raises NoNameservers) healthy) initial
       = Completed st' log slept)
  /\ final (main config [reading_at 7 (Raises NXDOMAIN) healthy]) = Crashed NXDOMAIN
  /\ caught NXDOMAIN = false
  /\ exists r, In r [reading_at 7 (Raises NXDOMAIN) healthy]
               /\ resolved r = Raises NXDOMAIN.
Proof.
  split; [ | split; [ reflexivity | ] ].
  - exact (proj1 caught_errors_are_failures_others_propagate NoNameservers config
             ("1.0.0.1", "one.one.one.one")%string
             (reading_at 7 (Raises NoNameservers) healthy) initial eq_refl).
  - apply (proj2 caught_errors_are_failures_others_propagate config
             [reading_at 7 (Raises NXDOMAIN) healthy] NXDOMAIN).
    reflexivity.
Defined.

(** C2, as stated, fails: a lookup that raises [NXDOMAIN] is not turned into
    a failed probe; the error leaves [main]. *)
Lemma nxdomain_leaves_main :
  ~ (forall e, exists answer log,
        try_resolve (Raises e) = inr (answer, log)
        /\ py_not_answer answer = true)
  /\ iteration config ("1.0.0.1", "one.one.one.one")%string
       (reading_at 7 (Raises NXDOMAIN) healthy) initial
     = Raised NXDOMAIN [Debug_interval_check ("1.0.0.1", "one.one.one.one")%string]
  /\ final (main config [reading_at 7 (Raises NXDOMAIN) healthy]) = Crashed NXDOMAIN.
Proof.
  split; [ | split; reflexivity ].
  intro H. destruct (H NXDOMAIN) as (answer & log & E & _).
  discriminate E.
Qed.

(** C3: when the fast probe fails and the deep check does not confirm an
    outage, the iteration leaves the state as it was, an inactive state
    inactive and an active outage with its start time, and logs neither a new
    outage nor a recovery.  An outage that is set (or active) before an
    iteration and not after it was ended by a successful fast probe. *)
Theorem false_alarm_leaves_state_unchanged cfg dns_pair r st :
  (fast_probe_failed (resolved r) = true ->
   deep_check cfg (net_now r) = false ->
   exists log slept,
     iteration cfg dns_pair r st = Completed st log slept
     /\ In Debug_false_alarm log
     /\ ~ In Error_new_outage log
     /\ ~ In Info_saw_recovery log)
  /\ (forall st' log slept,
      iteration cfg dns_pair r st = Completed st' log slept ->
      started_at_set st = true -> started_at_set st' = false ->
      fast_probe_succeeded (resolved r) = true)
  /\ (forall st' log slept,
      iteration cfg dns_pair r st = Completed st' log slept ->
      outage_active st = true -> outage_active st' = false ->
      fast_probe_succeeded (resolved r) = true).
Proof.
  split; [ | split ].
  - intros Hfail Hdeep. revert Hfail.
    unfold iteration, update, fast_probe_failed, try_resolve.
    rewrite Hdeep.
    destruct (resolved r) as [ [ | record rrset ] | [ | | | | ] ]; simpl;
      try discriminate; intros _;
      destruct (time_to_sleep cfg (loop_end r - loop_start r));
      eexists _, _; (split; [ reflexivity | ]); simpl;
      intuition discriminate.
  - intros st' log slept.
    unfold started_at_set.
    by_cases_of_iteration r st; intro H; try discriminate H;
      injection H as <- _ _; simpl; congruence.
  - intros st' log slept.
    unfold outage_active.
    by_cases_of_iteration r st; intro H; try discriminate H;
      injection H as <- _ _; simpl; congruence.
Qed.

Lemma false_alarm_leaves_state_unchanged_witness :
  let down := {| start_of_failure := Some 3; last_success := Some 1 |} in
  exists log slept,
    iteration config ("8.8.4.4", "dns.google")%string
      (reading_at 9 (Raises LifetimeTimeout) healthy) down
    = Completed down log slept
    /\ In Debug_false_alarm log
    /\ ~ In Error_new_outage log
    /\ ~ In Info_saw_recovery log.
Proof.
  intro down.
  apply (proj1 (false_alarm_leaves_state_unchanged config
                  ("8.8.4.4", "dns.google")%string
                  (reading_at 9 (Raises LifetimeTimeout) healthy) down));
    reflexivity.
Defined.

(** C6: after an iteration whose work took [w], the loop sleeps [I - w]
    when [w < I] and does not sleep when [w >= I]; a sleep is never negative
    or zero long.  With [I = 1.0], work of 0.3 s is followed by a sleep of
    0.7 s and work of 1.4 s by none. *)
Theorem loop_pacing cfg dns_pair r st st' log slept :
  iteration cfg dns_pair r st = Completed st' log slept ->
  let w := loop_end r - loop_start r in
  (w < MONITORING_INTERVAL cfg -> slept = Some (MONITORING_INTERVAL cfg - w))
  /\ (MONITORING_INTERVAL cfg <= w -> slept = None)
  /\ (forall d, slept = Some d -> 0 < d)
  /\ time_to_sleep config (3 # 10) = Some (7 # 10)
  /\ time_to_sleep config (14 # 10) = None.
Proof.
  intros Hit w. apply iteration_slept in Hit. fold w in Hit. subst slept.
  unfold time_to_sleep.
  split; [ | split; [ | split; [ | split; reflexivity ] ] ].
  - intro Hlt. apply Qlt_bool_iff in Hlt. rewrite Hlt. reflexivity.
  - intro Hle. apply Qlt_bool_false_iff in Hle. rewrite Hle. reflexivity.
  - intro d.
    destruct (Qlt_bool w (MONITORING_INTERVAL cfg)) eqn:E; [ | discriminate ].
    intro H. injection H as <-.
    apply Qlt_bool_iff in E.
    apply (proj1 (Qlt_minus_iff _ _) E).
Qed.

(** Every completed iteration is followed by exactly the pause its own work
    time asks for: no iteration is skipped to catch up. *)
Lemma sleeps_follow_readings cfg rs :
  exists k,
    sleeps (main cfg rs)
    = map (fun r => time_to_sleep cfg (loop_end r - loop_start r)) (firstn k rs)
    /\ (forall st, final (main cfg rs) = Looping st -> k = List.length rs).
Proof.
  unfold main. generalize 0%nat, initial.
  induction rs as [ | r rs IH ]; intros i st0; simpl.
  - exists 0%nat. destruct (cycle cfg i); simpl; auto.
  - destruct (cycle cfg i) as [ dns_pair | ]; simpl.
    + destruct (iteration cfg dns_pair r st0) as [ e lg | st' lg slept ] eqn:Hit;
        simpl.
      * exists 0%nat. split; [ reflexivity | discriminate ].
      * destruct (IH (S i) st') as (k & Hk & Hlen).
        exists (S k). simpl. rewrite Hk, (iteration_slept _ _ _ _ _ _ _ Hit).
        split; [ reflexivity | ].
        intros st Hst. f_equal. exact (Hlen st Hst).
    + exists 0%nat. split; [ reflexivity | discriminate ].
Qed.

Lemma loop_pacing_witness :
  let r := reading_from 100 (1001 # 10) (1003 # 10) (Answer ["1.1.1.1"%string]) healthy in
  loop_end r - loop_start r < MONITORING_INTERVAL config
  /\ exists st' log,
      iteration config ("1.0.0.1", "one.one.one.one")%string r initial
      = Completed st' log
          (Some (MONITORING_INTERVAL config - (loop_end r - loop_start r))).
Proof.
  intro r.
  assert (Hlt : loop_end r - loop_start r < MONITORING_INTERVAL config)
    by reflexivity.
  split; [ exact Hlt | ].
  eexists _, _.
  pose proof (loop_pacing config ("1.0.0.1", "one.one.one.one")%string r initial
                _ _ _ eq_refl) as H.
  rewrite <- (proj1 H Hlt).
  reflexivity.
Defined.

(** ** The log of the loop *)

Lemma iteration_keeps_bracketing cfg dns_pair r st open :
  (outage_active st = true -> open = true) ->
  match iteration cfg dns_pair r st with
  | Raised _ log => ended_closes_began open log = true
  | Completed st' log _ =>
      exists open',
        (outage_active st' = true -> open' = true)
        /\ forall rest,
            ended_closes_began open' rest = true ->
            ended_closes_began open (log ++ rest) = true
  end.
Proof.
  unfold outage_active. intro Hopen.
  unfold iteration, update, try_resolve.
  destruct (resolved r) as [ [ | record rrset ] | [ | | | | ] ]; simpl;
    try reflexivity;
    destruct (time_to_sleep cfg (loop_end r - loop_start r)); simpl.
  all: lazymatch goal with
       | |- context [deep_check _ _] =>
           (* the lookup failed *)
           destruct (deep_check cfg (net_now r));
           [ destruct (truthy_time (start_of_failure st)) eqn:Hact | ]; simpl;
           [ exists open; split; [ intros _; apply Hopen; reflexivity | ]
           | exists true; split; [ reflexivity | ]
           | exists open; split; [ exact Hopen | ] ];
           intros rest Hrest; exact Hrest
       | |- _ =>
           (* the lookup was answered *)
           destruct (start_of_failure st) as [ started | ]; simpl in *;
           [ destruct (Qeq_bool started 0); simpl in * | ];
           [ exists open; split; [ discriminate | ]
           | exists false; split; [ discriminate | ];
             rewrite (Hopen eq_refl)
           | exists open; split; [ discriminate | ] ];
           intros rest Hrest; simpl; exact Hrest
       end.
Qed.

Lemma loop_keeps_bracketing cfg rs :
  forall i st open,
    (outage_active st = true -> open = true) ->
    ended_closes_began open (logged (loop cfg i rs st)) = true.
Proof.
  induction rs as [ | r rs IH ]; intros i st open Hopen; simpl.
  - destruct (cycle cfg i); reflexivity.
  - destruct (cycle cfg i) as [ dns_pair | ]; [ | reflexivity ].
    pose proof (iteration_keeps_bracketing cfg dns_pair r st open Hopen) as H.
    destruct (iteration cfg dns_pair r st) as [ e lg | st' lg slept ]; simpl.
    + exact H.
    + destruct H as (open' & Hopen' & Hrest).
      apply Hrest, IH, Hopen'.
Qed.

Lemma ended_closes_began_split pre :
  forall open post,
    ended_closes_began open (pre ++ Info_saw_recovery :: post) = true ->
    (open = true /\ ~ In Info_saw_recovery pre)
    \/ exists before between,
        pre = before ++ Error_new_outage :: between
        /\ ~ In Info_saw_recovery between.
Proof.
  induction pre as [ | x pre IH ]; intros open post H.
  - simpl in H. apply andb_true_iff in H. left. split; [ tauto | intros [] ].
  - assert (Hcons : forall o,
               ended_closes_began o (pre ++ Info_saw_recovery :: post) = true ->
               x <> Info_saw_recovery ->
               (o = true /\ ~ In Info_saw_recovery (x :: pre))
               \/ exists before between,
                   x :: pre = before ++ Error_new_outage :: between
                   /\ ~ In Info_saw_recovery between).
    { intros o Ho Hx. destruct (IH o post Ho) as [ [Ht Hn] | (b & m & E & Hn) ].
      - left. split; [ exact Ht | ]. intros [ Hin | Hin ]; auto.
      - right. exists (x :: b), m. rewrite E. auto. }
    destruct x; simpl in H;
      try (destruct (Hcons open H ltac:(discriminate)) as [ Hl | Hr ];
           [ left; exact Hl | right; exact Hr ]).
    + destruct (IH true post H) as [ [_ Hn] | (b & m & E & Hn) ].
      * right. exists [], pre. auto.
      * right. exists (Error_new_outage :: b), m. rewrite E. auto.
    + apply andb_true_iff in H. destruct H as [_ H].
      destruct (IH false post H) as [ [Ht _] | (b & m & E & Hn) ];
        [ discriminate | ].
      right. exists (Info_saw_recovery :: b), m. rewrite E. auto.
Qed.

(** C9: in the log of any run of [main], every "Saw recovery from network
    outage" comes after a "New outage detected" with no other "Saw recovery"
    between the two. *)
Theorem recovery_closes_an_open_outage cfg rs pre post :
  logged (main cfg rs) = pre ++ Info_saw_recovery :: post ->
  ended_closes_began false (logged (main cfg rs)) = true
  /\ exists before between,
      pre = before ++ Error_new_outage :: between
      /\ ~ In Info_saw_recovery between.
Proof.
  intro Hlog.
  assert (Hb : ended_closes_began false (logged (main cfg rs)) = true)
    by (apply loop_keeps_bracketing; discriminate).
  split; [ exact Hb | ].
  rewrite Hlog in Hb.
  destruct (ended_closes_began_split pre false post Hb) as [ [Hf _] | H ];
    [ discriminate | exact H ].
Qed.

Lemma recovery_closes_an_open_outage_witness :
  let log := logged (main config [outage_at 3; outage_at 5; answered_at 12]) in
  exists before between,
    firstn 13 log = before ++ Error_new_outage :: between
    /\ ~ In Info_saw_recovery between.
Proof.
  intro log.
  apply (recovery_closes_an_open_outage config
           [outage_at 3; outage_at 5; answered_at 12]
           (firstn 13 log) (skipn 14 log)).
  vm_compute. reflexivity.
Defined.

(** ** The outage state *)

Lemma truthy_time_nonzero (t : Q) : ~ t == 0 -> truthy_time (Some t) = true.
Proof.
  intro Hnz. simpl. destruct (Qeq_bool t 0) eqn:E; [ | reflexivity ].
  apply Qeq_bool_iff in E. contradiction.
Qed.

(** An outage whose start time is not zero is ended by a successful lookup
    with a report of [now - started], and the state is cleared. *)
Lemma recovery_reports_duration cfg dns_pair r st started :
  start_of_failure st = Some started ->
  ~ started == 0 ->
  fast_probe_succeeded (resolved r) = true ->
  exists log slept,
    iteration cfg dns_pair r st
    = Completed {| start_of_failure := None; last_success := Some (now r) |}
        log slept
    /\ In Info_saw_recovery log
    /\ durations log = [now r - started].
Proof.
  intros Hst Hnz.
  pose proof (truthy_time_nonzero started Hnz) as Ht. simpl in Ht.
  unfold iteration, update, fast_probe_succeeded, try_resolve.
  destruct (resolved r) as [ [ | record rrset ] | [ | | | | ] ]; simpl;
    try discriminate; intros _.
  rewrite Hst. simpl. rewrite Ht.
  destruct (time_to_sleep cfg (loop_end r - loop_start r));
    eexists _, _; (split; [ reflexivity | ]); simpl; auto.
Qed.

(** An outage whose start time is not zero keeps it when it is confirmed
    again. *)
Lemma confirmation_keeps_start cfg dns_pair r st started :
  start_of_failure st = Some started ->
  ~ started == 0 ->
  fast_probe_failed (resolved r) = true ->
  deep_check cfg (net_now r) = true ->
  exists log slept,
    iteration cfg dns_pair r st = Completed st log slept
    /\ In Debug_already_down log
    /\ logged_times is_new_outage log = 0%nat.
Proof.
  intros Hst Hnz Hfail Hdeep. revert Hfail.
  pose proof (truthy_time_nonzero started Hnz) as Ht.
  unfold iteration, update, fast_probe_failed, try_resolve.
  rewrite Hdeep, Hst, Ht.
  destruct (resolved r) as [ [ | record rrset ] | [ | | | | ] ]; simpl;
    try discriminate; intros _;
    destruct (time_to_sleep cfg (loop_end r - loop_start r));
    eexists _, _; (split; [ reflexivity | ]); simpl; auto 10.
Qed.

Lemma iteration_keeps_set_iff_active cfg dns_pair r st st' log slept :
  started_at_set st = outage_active st ->
  ~ now r == 0 ->
  iteration cfg dns_pair r st = Completed st' log slept ->
  started_at_set st' = outage_active st'.
Proof.
  intros Hinv Hnz.
  pose proof (truthy_time_nonzero (now r) Hnz) as Ht. simpl in Ht.
  unfold started_at_set, outage_active in *.
  by_cases_of_iteration r st; intro H; try discriminate H;
    injection H as <- _ _; simpl; try rewrite Ht; congruence.
Qed.

(** As long as no outage is found at a clock reading of exactly zero,
    [start_of_failure] is set exactly when the outage is active. *)
Lemma started_at_set_iff_active cfg rs st :
  Forall (fun r => ~ now r == 0) rs ->
  final (main cfg rs) = Looping st ->
  started_at_set st = outage_active st.
Proof.
  unfold main.
  assert (Hinit : started_at_set initial = outage_active initial) by reflexivity.
  revert Hinit. generalize 0%nat, initial.
  induction rs as [ | r rs IH ]; intros i st0 Hinv Hall; simpl.
  - destruct (cycle cfg i); [ | discriminate ].
    intro H. injection H as <-. exact Hinv.
  - destruct (cycle cfg i) as [ dns_pair | ]; [ | discriminate ].
    inversion Hall as [ | r' rs' Hnz Hall' ]; subst.
    destruct (iteration cfg dns_pair r st0) as [ e lg | st' lg slept ] eqn:Hit;
      simpl; [ discriminate | ].
    apply IH; [ | exact Hall' ].
    exact (iteration_keeps_set_iff_active _ _ _ _ _ _ _ Hinv Hnz Hit).
Qed.



(** * Further properties of the deep check *)

Lemma exceeds_threshold_Z (f n : nat) (t : Q) :
  exceeds_threshold f n t = true
  <-> (Z.of_nat n * Qnum t < Z.of_nat f * Z.pos (Qden t))%Z.
Proof.
  unfold exceeds_threshold. rewrite Qgt_bool_iff.
  unfold Qlt, of_int; simpl. rewrite Z.mul_1_r. reflexivity.
Qed.

Lemma not_exceeds_threshold_Z (f n : nat) (t : Q) :
  exceeds_threshold f n t = false
  <-> (Z.of_nat f * Z.pos (Qden t) <= Z.of_nat n * Qnum t)%Z.
Proof.
  pose proof (exceeds_threshold_Z f n t) as H.
  destruct (exceeds_threshold f n t); split; intro H'; try reflexivity;
    try discriminate.
  - assert (Hlt := proj1 H eq_refl). lia.
  - apply Z.le_ngt. intro Hlt. apply H in Hlt. discriminate.
Qed.

Lemma all_targets_length cfg :
  List.length (all_targets cfg)
  = (List.length (ICMP_TARGETS cfg) + List.length (WEB_TARGETS cfg))%nat.
Proof. unfold all_targets. rewrite length_app, !length_map. reflexivity. Qed.

Lemma filter_length_bound {A : Type} (f : A -> bool) (l : list A) :
  (List.length (filter f l) <= List.length l)%nat.
Proof.
  induction l as [ | x l IH ]; simpl; [ lia | ].
  destruct (f x); simpl; lia.
Qed.

Lemma filter_length_mono {A : Type} (f g : A -> bool) (l : list A) :
  (forall x, In x l -> f x = true -> g x = true) ->
  (List.length (filter f l) <= List.length (filter g l))%nat.
Proof.
  induction l as [ | x l IH ]; intro H; simpl; [ lia | ].
  assert (IH' : (List.length (filter f l) <= List.length (filter g l))%nat)
    by (apply IH; intros y Hy; apply H; right; exact Hy).
  destruct (f x) eqn:Ef.
  - rewrite (H x (or_introl eq_refl) Ef). simpl. lia.
  - destruct (g x); simpl; lia.
Qed.

Lemma filter_all {A : Type} (f : A -> bool) (l : list A) :
  (forall x, In x l -> f x = true) -> filter f l = l.
Proof.
  induction l as [ | x l IH ]; intro H; simpl; [ reflexivity | ].
  rewrite (H x (or_introl eq_refl)). f_equal.
  apply IH. intros y Hy. apply H. right. exact Hy.
Qed.

Lemma filter_none {A : Type} (f : A -> bool) (l : list A) :
  (forall x, In x l -> f x = false) -> filter f l = [].
Proof.
  induction l as [ | x l IH ]; intro H; simpl; [ reflexivity | ].
  rewrite (H x (or_introl eq_refl)).
  apply IH. intros y Hy. apply H. right. exact Hy.
Qed.

Lemma failures_bound cfg net :
  (failures (deep_check_outcome cfg net)
   <= totalChecks (deep_check_outcome cfg net))%nat.
Proof.
  rewrite failures_count.
  change (totalChecks (deep_check_outcome cfg net))
    with (List.length (ICMP_TARGETS cfg) + List.length (WEB_TARGETS cfg))%nat.
  rewrite <- all_targets_length. apply filter_length_bound.
Qed.

Lemma total_checks_all_targets cfg net :
  totalChecks (deep_check_outcome cfg net) = List.length (all_targets cfg).
Proof. symmetry. apply all_targets_length. Qed.

(** The deep check never counts more failures than it makes checks, and it
    makes one check per configured target. *)
Theorem failures_at_most_total_checks cfg net :
  (failures (deep_check_outcome cfg net)
   <= totalChecks (deep_check_outcome cfg net))%nat
  /\ totalChecks (deep_check_outcome cfg net) = List.length (all_targets cfg).
Proof.
  split; [ apply failures_bound | apply total_checks_all_targets ].
Qed.

(** Without ICMP and HTTP targets the deep check confirms no outage,
    whatever the threshold is. *)
Theorem deep_check_without_targets cfg net :
  ICMP_TARGETS cfg = [] ->
  WEB_TARGETS cfg = [] ->
  deep_check cfg net = false.
Proof.
  intros Hicmp Hweb. rewrite deep_check_unfold.
  unfold deep_check_outcome. rewrite Hicmp, Hweb. simpl.
  apply not_exceeds_threshold_Z. simpl. lia.
Qed.

Lemma deep_check_without_targets_witness :
  deep_check (with_targets config [] []) unreachable = false.
Proof.
  apply (deep_check_without_targets (with_targets config [] []) unreachable);
    reflexivity.
Defined.

(** With a threshold of 100 percent or more the deep check confirms no
    outage, even when every probe fails. *)
Theorem deep_check_threshold_of_one_or_more cfg net :
  1 <= OUTAGE_THRESHOLD cfg ->
  deep_check cfg net = false.
Proof.
  intro Ht. rewrite deep_check_unfold.
  pose proof (failures_bound cfg net) as Hle.
  apply not_exceeds_threshold_Z.
  unfold Qle in Ht. simpl in Ht. nia.
Qed.

Lemma deep_check_threshold_of_one_or_more_witness :
  let cfg := {| MONITORING_INTERVAL := 1; TIMEOUT := 1; OUTAGE_THRESHOLD := 1;
                DNS_PAIRS := DNS_PAIRS config;
                ICMP_TARGETS := ICMP_TARGETS config;
                WEB_TARGETS := WEB_TARGETS config |} in
  1 <= OUTAGE_THRESHOLD cfg /\ deep_check cfg unreachable = false.
Proof.
  intro cfg.
  assert (Ht : 1 <= OUTAGE_THRESHOLD cfg) by (vm_compute; discriminate).
  split; [ exact Ht | ].
  exact (deep_check_threshold_of_one_or_more cfg unreachable Ht).
Defined.

(** The verdict is monotone in the probes that fail: when every probe that
    fails on one network also fails on another, the other network has at
    least as many failures, and an outage on the first is an outage on the
    other. *)
Theorem deep_check_monotone cfg net net' :
  (forall target, In target (all_targets cfg) ->
                  probe_failed net (TIMEOUT cfg) target = true ->
                  probe_failed net' (TIMEOUT cfg) target = true) ->
  (failures (deep_check_outcome cfg net)
   <= failures (deep_check_outcome cfg net'))%nat
  /\ (deep_check cfg net = true -> deep_check cfg net' = true).
Proof.
  intro Hsub.
  assert (Hle : (failures (deep_check_outcome cfg net)
                 <= failures (deep_check_outcome cfg net'))%nat).
  { rewrite !failures_count. apply filter_length_mono. exact Hsub. }
  split; [ exact Hle | ].
  rewrite !deep_check_unfold.
  change (totalChecks (deep_check_outcome cfg net'))
    with (totalChecks (deep_check_outcome cfg net)).
  rewrite !exceeds_threshold_Z. nia.
Qed.

Lemma deep_check_monotone_witness :
  (failures (deep_check_outcome config gateway_only)
   <= failures (deep_check_outcome config unreachable))%nat
  /\ (deep_check config gateway_only = true ->
      deep_check config unreachable = true).
Proof.
  apply (deep_check_monotone config gateway_only unreachable).
  intros target _ _. destruct target; reflexivity.
Defined.

(** When every probe fails, every check is a failure, and with at least one
    target and a threshold from 0 up to but not including 1 the deep check
    confirms the outage. *)
Theorem deep_check_when_all_probes_fail cfg net :
  (forall target, In target (all_targets cfg) ->
                  probe_failed net (TIMEOUT cfg) target = true) ->
  failures (deep_check_outcome cfg net)
  = totalChecks (deep_check_outcome cfg net)
  /\ (all_targets cfg <> [] ->
      0 <= OUTAGE_THRESHOLD cfg -> OUTAGE_THRESHOLD cfg < 1 ->
      deep_check cfg net = true).
Proof.
  intro Hall.
  assert (Heq : failures (deep_check_outcome cfg net)
                = totalChecks (deep_check_outcome cfg net)).
  { rewrite failures_count, (filter_all _ _ Hall).
    symmetry. apply total_checks_all_targets. }
  split; [ exact Heq | ].
  intros Hne H0 H1. rewrite deep_check_unfold, Heq.
  apply exceeds_threshold_Z.
  assert (Hpos : (0 < totalChecks (deep_check_outcome cfg net))%nat).
  { rewrite total_checks_all_targets.
    destruct (all_targets cfg); [ congruence | simpl; lia ]. }
  unfold Qlt, Qle in *. simpl in *. nia.
Qed.

Lemma deep_check_when_all_probes_fail_witness :
  failures (deep_check_outcome config unreachable)
  = totalChecks (deep_check_outcome config unreachable)
  /\ deep_check config unreachable = true.
Proof.
  assert (Hall : forall target, In target (all_targets config) ->
                   probe_failed unreachable (TIMEOUT config) target = true)
    by (intros target _; destruct target; reflexivity).
  destruct (deep_check_when_all_probes_fail config unreachable Hall) as [Heq Hout].
  split; [ exact Heq | ].
  apply Hout; [ discriminate | vm_compute; discriminate | reflexivity ].
Defined.

(** When every probe succeeds there is no failure, and with a threshold that
    is not negative the deep check confirms no outage. *)
Theorem deep_check_when_all_probes_succeed cfg net :
  (forall target, In target (all_targets cfg) ->
                  probe_failed net (TIMEOUT cfg) target = false) ->
  failures (deep_check_outcome cfg net) = 0%nat
  /\ (0 <= OUTAGE_THRESHOLD cfg -> deep_check cfg net = false).
Proof.
  intro Hall.
  assert (Heq : failures (deep_check_outcome cfg net) = 0%nat)
    by (rewrite failures_count, (filter_none _ _ Hall); reflexivity).
  split; [ exact Heq | ].
  intro H0. rewrite deep_check_unfold, Heq.
  apply not_exceeds_threshold_Z.
  unfold Qle in H0. simpl in *. nia.
Qed.

Lemma deep_check_when_all_probes_succeed_witness :
  failures (deep_check_outcome config healthy) = 0%nat
  /\ deep_check config healthy = false.
Proof.
  assert (Hall : forall target, In target (all_targets config) ->
                   probe_failed healthy (TIMEOUT config) target = false)
    by (intros target _; destruct target; reflexivity).
  destruct (deep_check_when_all_probes_succeed config healthy Hall) as [Heq Hout].
  split; [ exact Heq | ].
  apply Hout. vm_compute. discriminate.
Defined.


(** [website_alive] is truthy exactly when the worker finished in time with
    a response whose status is not a 4xx or 5xx error and whose headers are
    not empty. *)
Theorem website_alive_iff net url timeout :
  truthy (website_alive net url timeout) = true
  <-> exists r,
      timed_request net url timeout = Some (Head_response r)
      /\ ((status_code r < 400)%Z \/ (600 <= status_code r)%Z)
      /\ headers r <> [].
Proof.
  assert (Hok : forall r, ok r = true
                  <-> (status_code r < 400)%Z \/ (600 <= status_code r)%Z).
  { intro r. unfold ok.
    destruct (Z.leb_spec 400 (status_code r));
      destruct (Z.ltb_spec (status_code r) 600); simpl;
      split; intro; try discriminate; try reflexivity; lia. }
  unfold website_alive.
  destruct (timed_request net url timeout) as [ [ r | ] | ]; simpl.
  - destruct (ok r) eqn:E; simpl.
    + split.
      * intro H. exists r. split; [ reflexivity | ].
        split; [ apply Hok, E | ].
        destruct (headers r); [ discriminate H | discriminate ].
      * intros (r' & Er & _ & Hh). injection Er as <-.
        destruct (headers r); [ congruence | reflexivity ].
    + split.
      * congruence.
      * intros (r' & Er & Hs & _). injection Er as <-.
        apply Hok in Hs. congruence.
  - split; [ discriminate | ]. intros (r & E & _). discriminate.
  - split; [ discriminate | ]. intros (r & E & _). discriminate.
Qed.

(** * Further properties of one iteration *)

Lemma recovery_reports_duration_witness :
  let down := {| start_of_failure := Some 3; last_success := None |} in
  exists log slept,
    iteration config ("8.8.4.4", "dns.google")%string (answered_at 12) down
    = Completed {| start_of_failure := None; last_success := Some 12 |} log slept
    /\ In Info_saw_recovery log
    /\ durations log = [12 - 3].
Proof.
  intro down.
  apply (recovery_reports_duration config ("8.8.4.4", "dns.google")%string
           (answered_at 12) down 3).
  - reflexivity.
  - intro H. discriminate H.
  - reflexivity.
Defined.

Lemma confirmation_keeps_start_witness :
  let down := {| start_of_failure := Some 3; last_success := None |} in
  exists log slept,
    iteration config ("8.8.4.4", "dns.google")%string (outage_at 5) down
    = Completed down log slept
    /\ In Debug_already_down log
    /\ logged_times is_new_outage log = 0%nat.
Proof.
  intro down.
  apply (confirmation_keeps_start config ("8.8.4.4", "dns.google")%string
           (outage_at 5) down 3).
  - reflexivity.
  - intro H. discriminate H.
  - reflexivity.
  - reflexivity.
Defined.

Lemma started_at_set_iff_active_witness :
  let st := {| start_of_failure := Some 3; last_success := None |} in
  final (main config [outage_at 3; outage_at 5]) = Looping st
  /\ started_at_set st = outage_active st.
Proof.
  intro st. split; [ reflexivity | ].
  apply (started_at_set_iff_active config [outage_at 3; outage_at 5] st).
  - repeat constructor; intro H; discriminate H.
  - reflexivity.
Defined.

Lemma sleeps_follow_readings_witness :
  exists k,
    sleeps (main config [outage_at 3; answered_at 12])
    = map (fun r => time_to_sleep config (loop_end r - loop_start r))
        (firstn k [outage_at 3; answered_at 12])
    /\ k = 2%nat.
Proof.
  destruct (sleeps_follow_readings config [outage_at 3; answered_at 12])
    as (k & Hk & Hlen).
  exists k. split; [ exact Hk | ].
  apply (Hlen {| start_of_failure := None; last_success := Some 12 |}).
  reflexivity.
Defined.

Lemma events_app (l1 l2 : list log_record) :
  events (l1 ++ l2) = events l1 ++ events l2.
Proof. apply filter_app. Qed.

Lemma interval_checks_app (l1 l2 : list log_record) :
  interval_checks (l1 ++ l2) = interval_checks l1 ++ interval_checks l2.
Proof.
  induction l1 as [ | x l1 IH ]; simpl; [ reflexivity | ].
  destruct x; simpl; congruence.
Qed.

(** The four ways through the body of the loop: what each does to the state
    and which outage records it logs. *)
Lemma iteration_cases cfg dns_pair r st st' log slept :
  iteration cfg dns_pair r st = Completed st' log slept ->
  interval_checks log = [dns_pair]
  /\ ((fast_probe_failed (resolved r) = true
       /\ deep_check cfg (net_now r) = true
       /\ outage_active st = true
       /\ st' = st /\ events log = [])
      \/ (fast_probe_failed (resolved r) = true
          /\ deep_check cfg (net_now r) = true
          /\ outage_active st = false
          /\ st' = {| start_of_failure := Some (now r);
                      last_success := last_success st |}
          /\ events log = [Error_new_outage])
      \/ (fast_probe_failed (resolved r) = true
          /\ deep_check cfg (net_now r) = false
          /\ st' = st /\ events log = [])
      \/ (fast_probe_succeeded (resolved r) = true
          /\ st' = {| start_of_failure := None; last_success := Some (now r) |}
          /\ events log
             = match start_of_failure st with
               | Some started =>
                   if outage_active st
                   then [Info_saw_recovery; Info_duration (now r - started)]
                   else []
               | None => []
               end)).
Proof.
  unfold outage_active, iteration, update, fast_probe_failed,
    fast_probe_succeeded, try_resolve.
  destruct (resolved r) as [ [ | record rrset ] | [ | | | | ] ]; simpl;
    try discriminate;
    destruct (time_to_sleep cfg (loop_end r - loop_start r)).
  (* the lookup was answered *)
  3, 4: intro H; injection H as <- <- _;
    (split;
     [ destruct (start_of_failure st) as [ started | ]; simpl;
       [ destruct (Qeq_bool started 0) | ]; reflexivity
     | right; right; right;
       split; [ reflexivity | ]; split; [ reflexivity | ];
       destruct (start_of_failure st) as [ started | ]; simpl;
       [ destruct (Qeq_bool started 0) | ]; reflexivity ]).
  (* the lookup failed *)
  all: destruct (deep_check cfg (net_now r));
    [ destruct (truthy_time (start_of_failure st)) eqn:Hact | ];
    intro H; injection H as <- <- _; simpl;
    (split; [ reflexivity | ]);
    [ left | right; left | right; right; left ];
    repeat split; reflexivity.
Qed.

(** A successful lookup while no outage is active is a plain heartbeat: it
    logs no outage record and leaves the state without an outage, with
    [last_success] at the clock reading. *)
Theorem heartbeat_without_outage cfg dns_pair r st :
  outage_active st = false ->
  fast_probe_succeeded (resolved r) = true ->
  exists log slept,
    iteration cfg dns_pair r st
    = Completed {| start_of_failure := None; last_success := Some (now r) |}
        log slept
    /\ events log = [].
Proof.
  intros Hup Hok.
  destruct (iteration cfg dns_pair r st) as [ e lg | st' lg slept ] eqn:Hit.
  - apply iteration_raises in Hit. destruct Hit as (Hr & Hc & _).
    unfold fast_probe_succeeded, try_resolve in Hok. rewrite Hr, Hc in Hok.
    discriminate.
  - exists lg, slept.
    assert (Hno : fast_probe_failed (resolved r) = false).
    { revert Hok. unfold fast_probe_failed, fast_probe_succeeded.
      destruct (try_resolve (resolved r)) as [ | [answer l] ];
        [ discriminate | ].
      destruct (py_not_answer answer); [ discriminate | reflexivity ]. }
    destruct (iteration_cases _ _ _ _ _ _ _ Hit)
      as (_ & [ (Hf & _) | [ (Hf & _) | [ (Hf & _) | (_ & -> & Hev) ] ] ]);
      try congruence.
    split; [ reflexivity | ].
    rewrite Hev, Hup. destruct (start_of_failure st); reflexivity.
Qed.

Lemma heartbeat_without_outage_witness :
  exists log slept,
    iteration config ("1.0.0.1", "one.one.one.one")%string (answered_at 20)
      {| start_of_failure := None; last_success := Some 19 |}
    = Completed {| start_of_failure := None; last_success := Some 20 |}
        log slept
    /\ events log = [].
Proof.
  apply (heartbeat_without_outage config ("1.0.0.1", "one.one.one.one")%string
           (answered_at 20)
           {| start_of_failure := None; last_success := Some 19 |});
    reflexivity.
Defined.

(** A failed lookup that the deep check confirms while no outage is active
    starts one: "New outage detected" is the only outage record logged,
    [start_of_failure] becomes the clock reading and [last_success] stays. *)
Theorem new_outage_sets_start cfg dns_pair r st :
  outage_active st = false ->
  fast_probe_failed (resolved r) = true ->
  deep_check cfg (net_now r) = true ->
  exists log slept,
    iteration cfg dns_pair r st
    = Completed {| start_of_failure := Some (now r);
                   last_success := last_success st |} log slept
    /\ events log = [Error_new_outage].
Proof.
  intros Hup Hfail Hdeep.
  destruct (iteration cfg dns_pair r st) as [ e lg | st' lg slept ] eqn:Hit.
  - apply iteration_raises in Hit. destruct Hit as (Hr & Hc & _).
    unfold fast_probe_failed, try_resolve in Hfail. rewrite Hr, Hc in Hfail.
    discriminate.
  - exists lg, slept.
    assert (Hno : fast_probe_succeeded (resolved r) = false).
    { revert Hfail. unfold fast_probe_failed, fast_probe_succeeded.
      destruct (try_resolve (resolved r)) as [ | [answer l] ];
        [ discriminate | ].
      destruct (py_not_answer answer); [ reflexivity | discriminate ]. }
    destruct (iteration_cases _ _ _ _ _ _ _ Hit)
      as (_ & [ (_ & _ & Ha & _)
              | [ (_ & _ & _ & -> & Hev) | [ (_ & Hd & _) | (Hs & _) ] ] ]);
      try congruence.
    split; [ reflexivity | exact Hev ].
Qed.

Lemma new_outage_sets_start_witness :
  exists log slept,
    iteration config ("1.0.0.1", "one.one.one.one")%string (outage_at 20)
      {| start_of_failure := None; last_success := Some 19 |}
    = Completed {| start_of_failure := Some 20; last_success := Some 19 |}
        log slept
    /\ events log = [Error_new_outage].
Proof.
  apply (new_outage_sets_start config ("1.0.0.1", "one.one.one.one")%string
           (outage_at 20)
           {| start_of_failure := None; last_success := Some 19 |});
    reflexivity.
Defined.

(** The deep check runs only after a failed lookup: an iteration whose
    lookup is answered, or raises an error that is not caught, does the same
    whatever the ICMP and HTTP targets would answer. *)
Theorem deep_check_only_after_failed_lookup cfg dns_pair r st net :
  fast_probe_failed (resolved r) = false ->
  iteration cfg dns_pair (with_network r net) st = iteration cfg dns_pair r st.
Proof.
  unfold iteration, update, fast_probe_failed, try_resolve. simpl.
  destruct (resolved r) as [ [ | record rrset ] | [ | | | | ] ]; simpl;
    try discriminate; reflexivity.
Qed.

Lemma deep_check_only_after_failed_lookup_witness :
  iteration config ("1.0.0.1", "one.one.one.one")%string
    (with_network (answered_at 20) unreachable) initial
  = iteration config ("1.0.0.1", "one.one.one.one")%string
      (answered_at 20) initial.
Proof.
  apply (deep_check_only_after_failed_lookup config
           ("1.0.0.1", "one.one.one.one")%string (answered_at 20) initial
           unreachable).
  reflexivity.
Defined.

(** * Further properties of the loop *)

Lemma cycle_none cfg i : DNS_PAIRS cfg = [] -> cycle cfg i = None.
Proof.
  unfold cycle. intros ->. apply nth_error_None. simpl. lia.
Qed.

Lemma cycle_some cfg i :
  DNS_PAIRS cfg <> [] -> exists dns_pair, cycle cfg i = Some dns_pair.
Proof.
  unfold cycle. intro Hne.
  destruct (nth_error (DNS_PAIRS cfg) (i mod List.length (DNS_PAIRS cfg)))
    as [ dns_pair | ] eqn:E.
  - exists dns_pair. reflexivity.
  - apply nth_error_None in E.
    assert (List.length (DNS_PAIRS cfg) <> 0)%nat
      by (destruct (DNS_PAIRS cfg); [ congruence | discriminate ]).
    pose proof (Nat.mod_upper_bound i (List.length (DNS_PAIRS cfg))). lia.
Qed.

Lemma loop_app_general cfg rs1 rs2 :
  forall i st st1,
    final (loop cfg i rs1 st) = Looping st1 ->
    loop cfg i (rs1 ++ rs2) st
    = {| final := final (loop cfg (i + List.length rs1) rs2 st1);
         logged := logged (loop cfg i rs1 st)
                   ++ logged (loop cfg (i + List.length rs1) rs2 st1);
         sleeps := sleeps (loop cfg i rs1 st)
                   ++ sleeps (loop cfg (i + List.length rs1) rs2 st1) |}.
Proof.
  induction rs1 as [ | r rs1 IH ]; intros i st st1 H.
  - simpl in H. simpl List.length. rewrite Nat.add_0_r.
    simpl (loop cfg i [] st).
    destruct (cycle cfg i) eqn:Hc; simpl in H; [ | discriminate ].
    injection H as <-. simpl.
    destruct (loop cfg i rs2 st); reflexivity.
  - simpl in H |- *.
    destruct (cycle cfg i) as [ dns_pair | ]; [ | discriminate ].
    destruct (iteration cfg dns_pair r st) as [ e lg | st' lg slept ];
      simpl in H |- *; [ discriminate | ].
    rewrite (IH (S i) st' st1 H). simpl.
    replace (i + S (List.length rs1))%nat with (S (i + List.length rs1)) by lia.
    rewrite app_assoc. reflexivity.
Qed.

(** Running the loop on a list of readings and then on a second list, from
    the state and the position in the cycle that the first run ends in, is
    running it on both lists in one go: the logs and the sleeps are
    concatenated. *)
Theorem main_app cfg rs1 rs2 st1 :
  final (main cfg rs1) = Looping st1 ->
  main cfg (rs1 ++ rs2)
  = {| final := final (loop cfg (List.length rs1) rs2 st1);
       logged := logged (main cfg rs1)
                 ++ logged (loop cfg (List.length rs1) rs2 st1);
       sleeps := sleeps (main cfg rs1)
                 ++ sleeps (loop cfg (List.length rs1) rs2 st1) |}.
Proof.
  intro H. exact (loop_app_general cfg rs1 rs2 0 initial st1 H).
Qed.

Lemma main_app_witness :
  final (main config ([outage_at 3] ++ [answered_at 12]))
  = final (loop config 1 [answered_at 12]
             {| start_of_failure := Some 3; last_success := None |}).
Proof.
  rewrite (main_app config [outage_at 3] [answered_at 12]
             {| start_of_failure := Some 3; last_success := None |} eq_refl).
  reflexivity.
Defined.

(** Once [main] has left the loop, by an error that is not caught or because
    there is no DNS pair to cycle over, further readings change nothing. *)
Theorem nothing_happens_after_the_loop cfg rs1 rs2 :
  (forall st1, final (main cfg rs1) <> Looping st1) ->
  main cfg (rs1 ++ rs2) = main cfg rs1.
Proof.
  unfold main. generalize 0%nat, initial.
  induction rs1 as [ | r rs1 IH ]; intros i st H.
  - simpl in H |- *.
    destruct (cycle cfg i) eqn:Hc; simpl in H.
    + exfalso. exact (H st eq_refl).
    + destruct rs2; simpl; rewrite Hc; reflexivity.
  - simpl in H |- *.
    destruct (cycle cfg i) as [ dns_pair | ]; [ | reflexivity ].
    destruct (iteration cfg dns_pair r st) as [ e lg | st' lg slept ];
      simpl in H |- *; [ reflexivity | ].
    rewrite (IH (S i) st' H). reflexivity.
Qed.

Lemma nothing_happens_after_the_loop_witness :
  main config ([reading_at 7 (Raises NXDOMAIN) healthy] ++ [answered_at 12])
  = main config [reading_at 7 (Raises NXDOMAIN) healthy].
Proof.
  apply (nothing_happens_after_the_loop config
           [reading_at 7 (Raises NXDOMAIN) healthy] [answered_at 12]).
  intros st1 H. discriminate H.
Defined.

(** With no DNS pair configured [main] returns at once, without a lookup,
    a log record or a sleep; with at least one it never returns that way. *)
Theorem main_returns_iff_no_dns_pairs cfg rs :
  (DNS_PAIRS cfg = [] ->
   main cfg rs = {| final := Returned; logged := []; sleeps := [] |})
  /\ (DNS_PAIRS cfg <> [] -> final (main cfg rs) <> Returned).
Proof.
  unfold main. split.
  - intro Hnil. destruct rs; simpl; rewrite (cycle_none cfg 0 Hnil); reflexivity.
  - intro Hne. generalize 0%nat, initial.
    induction rs as [ | r rs IH ]; intros i st; simpl;
      destruct (cycle_some cfg i Hne) as [dns_pair ->]; simpl.
    + discriminate.
    + destruct (iteration cfg dns_pair r st) as [ e lg | st' lg slept ];
        simpl; [ discriminate | apply IH ].
Qed.

Lemma main_returns_iff_no_dns_pairs_witness :
  let cfg := {| MONITORING_INTERVAL := 1; TIMEOUT := 1;
                OUTAGE_THRESHOLD := 25 / 100; DNS_PAIRS := [];
                ICMP_TARGETS := ICMP_TARGETS config;
                WEB_TARGETS := WEB_TARGETS config |} in
  main cfg [outage_at 3; answered_at 12]
  = {| final := Returned; logged := []; sleeps := [] |}
  /\ final (main config [outage_at 3; answered_at 12]) <> Returned.
Proof.
  intro cfg. split.
  - apply (proj1 (main_returns_iff_no_dns_pairs cfg [outage_at 3; answered_at 12])).
    reflexivity.
  - apply (proj2 (main_returns_iff_no_dns_pairs config
                    [outage_at 3; answered_at 12])).
    discriminate.
Defined.



Lemma interval_checks_loop cfg rs :
  forall i st st',
    final (loop cfg i rs st) = Looping st' ->
    map Some (interval_checks (logged (loop cfg i rs st)))
    = map (cycle cfg) (seq i (List.length rs)).
Proof.
  induction rs as [ | r rs IH ]; intros i st st'; simpl.
  - destruct (cycle cfg i); reflexivity.
  - destruct (cycle cfg i) as [ dns_pair | ] eqn:Hc; [ | discriminate ].
    destruct (iteration cfg dns_pair r st) as [ e lg | st1 lg slept ] eqn:Hit;
      simpl; [ discriminate | ].
    intro H. rewrite interval_checks_app, map_app.
    rewrite (proj1 (iteration_cases _ _ _ _ _ _ _ Hit)).
    rewrite (IH (S i) st1 st' H). reflexivity.
Qed.

(** The lookups go round robin: while [main] is in its loop, the pairs of
    its "Interval check using" records are [DNS_PAIRS] at the positions 0, 1,
    2, ... taken modulo the number of pairs. *)
Theorem lookups_go_round_robin cfg rs st :
  final (main cfg rs) = Looping st ->
  map Some (interval_checks (logged (main cfg rs)))
  = map (fun k => nth_error (DNS_PAIRS cfg) (k mod List.length (DNS_PAIRS cfg)))
      (seq 0 (List.length rs)).
Proof.
  intro H. exact (interval_checks_loop cfg rs 0 initial st H).
Qed.

Lemma lookups_go_round_robin_witness :
  let rs := [answered_at 1; answered_at 2; answered_at 3; answered_at 4;
             answered_at 5; answered_at 6] in
  map Some (interval_checks (logged (main config rs)))
  = map (fun k => nth_error (DNS_PAIRS config)
                    (k mod List.length (DNS_PAIRS config)))
      (seq 0 (List.length rs)).
Proof.
  intro rs.
  apply (lookups_go_round_robin config rs
           {| start_of_failure := None; last_success := Some 6 |}).
  reflexivity.
Defined.

(** * Further properties of the log of outages *)

Lemma alternates_events (log : list log_record) :
  forall open, alternates open log = alternates open (events log).
Proof.
  induction log as [ | x log IH ]; intro open; [ reflexivity | ].
  destruct x; simpl; rewrite ?IH; reflexivity.
Qed.

Lemma open_after_events (log : list log_record) :
  forall open, open_after open log = open_after open (events log).
Proof.
  induction log as [ | x log IH ]; intro open; [ reflexivity | ].
  destruct x; simpl; rewrite ?IH; reflexivity.
Qed.

Lemma durations_events (log : list log_record) :
  durations log = durations (events log).
Proof.
  induction log as [ | x log IH ]; [ reflexivity | ].
  destruct x; simpl; rewrite ?IH; reflexivity.
Qed.

Lemma alternates_app (l1 l2 : list log_record) :
  forall open,
    alternates open (l1 ++ l2)
    = alternates open l1 && alternates (open_after open l1) l2.
Proof.
  induction l1 as [ | x l1 IH ]; intro open; [ reflexivity | ].
  destruct x; simpl; rewrite ?IH, ?andb_assoc; reflexivity.
Qed.

Lemma open_after_app (l1 l2 : list log_record) :
  forall open, open_after open (l1 ++ l2) = open_after (open_after open l1) l2.
Proof.
  induction l1 as [ | x l1 IH ]; intro open; [ reflexivity | ].
  destruct x; simpl; rewrite ?IH; reflexivity.
Qed.

Lemma durations_app (l1 l2 : list log_record) :
  durations (l1 ++ l2) = durations l1 ++ durations l2.
Proof.
  induction l1 as [ | x l1 IH ]; [ reflexivity | ].
  destruct x; simpl; rewrite ?IH; reflexivity.
Qed.

Lemma active_is_set st :
  outage_active st = true -> exists started, start_of_failure st = Some started.
Proof.
  unfold outage_active. destruct (start_of_failure st) as [ s | ]; simpl.
  - intros _. exists s. reflexivity.
  - discriminate.
Qed.

Lemma iteration_alternates cfg dns_pair r st st' log slept :
  ~ now r == 0 ->
  iteration cfg dns_pair r st = Completed st' log slept ->
  alternates (outage_active st) log = true
  /\ open_after (outage_active st) log = outage_active st'.
Proof.
  intros Hnz Hit.
  pose proof (truthy_time_nonzero (now r) Hnz) as Ht.
  rewrite alternates_events, open_after_events.
  destruct (iteration_cases _ _ _ _ _ _ _ Hit)
    as (_ & [ (_ & _ & Ha & -> & ->)
            | [ (_ & _ & Ha & -> & ->)
              | [ (_ & _ & -> & ->) | (_ & -> & ->) ] ] ]).
  - rewrite Ha. auto.
  - rewrite Ha. unfold outage_active. simpl start_of_failure. rewrite Ht. auto.
  - auto.
  - destruct (outage_active st) eqn:Ha.
    + destruct (active_is_set st Ha) as [s ->]. auto.
    + destruct (start_of_failure st); auto.
Qed.

Lemma loop_alternates cfg rs :
  forall i st,
    Forall (fun r => ~ now r == 0) rs ->
    alternates (outage_active st) (logged (loop cfg i rs st)) = true
    /\ (forall st', final (loop cfg i rs st) = Looping st' ->
                    outage_active st'
                    = open_after (outage_active st) (logged (loop cfg i rs st))).
Proof.
  induction rs as [ | r rs IH ]; intros i st Hall; simpl.
  - destruct (cycle cfg i); simpl; split; try reflexivity; try discriminate.
    intros st' H. injection H as <-. reflexivity.
  - destruct (cycle cfg i) as [ dns_pair | ]; simpl;
      [ | split; [ reflexivity | discriminate ] ].
    inversion Hall as [ | r' rs' Hnz Hall' ]; subst.
    destruct (iteration cfg dns_pair r st) as [ e lg | st1 lg slept ] eqn:Hit;
      simpl.
    + apply iteration_raises in Hit. destruct Hit as (_ & _ & ->).
      split; [ reflexivity | discriminate ].
    + destruct (iteration_alternates _ _ _ _ _ _ _ Hnz Hit) as [Halt Hopen].
      destruct (IH (S i) st1 Hall') as [IHalt IHopen].
      rewrite alternates_app, open_after_app, Halt, Hopen, IHalt.
      split; [ reflexivity | exact IHopen ].
Qed.

(** As long as no outage is found at a clock reading of exactly zero, "New
    outage detected" and "Saw recovery" take turns in the log, starting with
    a new outage, and the loop holds an outage active exactly when the last
    of these records is a new outage. *)
Theorem outages_alternate cfg rs :
  Forall (fun r => ~ now r == 0) rs ->
  alternates false (logged (main cfg rs)) = true
  /\ (forall st, final (main cfg rs) = Looping st ->
                 outage_active st = open_after false (logged (main cfg rs))).
Proof.
  intro Hall. exact (loop_alternates cfg rs 0 initial Hall).
Qed.

Lemma outages_alternate_witness :
  let rs := [outage_at 3; outage_at 5; answered_at 12; outage_at 20] in
  alternates false (logged (main config rs)) = true
  /\ (forall st, final (main config rs) = Looping st ->
                 outage_active st = open_after false (logged (main config rs))).
Proof.
  intro rs. apply (outages_alternate config rs).
  repeat constructor; intro H; discriminate H.
Defined.

Lemma iteration_durations cfg dns_pair r st st' log slept :
  iteration cfg dns_pair r st = Completed st' log slept ->
  (durations log = []
   \/ exists started,
       start_of_failure st = Some started
       /\ durations log = [now r - started])
  /\ (start_of_failure st' = None
      \/ start_of_failure st' = start_of_failure st
      \/ start_of_failure st' = Some (now r)).
Proof.
  intro Hit. rewrite durations_events.
  destruct (iteration_cases _ _ _ _ _ _ _ Hit)
    as (_ & [ (_ & _ & _ & -> & ->)
            | [ (_ & _ & _ & -> & ->)
              | [ (_ & _ & -> & ->) | (_ & -> & ->) ] ] ]); simpl; auto.
  split; [ | auto ].
  destruct (start_of_failure st) as [ s | ]; [ | auto ].
  destruct (outage_active st); simpl; [ right; exists s; auto | auto ].
Qed.

Lemma loop_durations_nonnegative cfg rs :
  forall i st,
    (forall started, start_of_failure st = Some started ->
                     Forall (fun r => started <= now r) rs) ->
    StronglySorted (fun a b => now a <= now b) rs ->
    Forall (fun d => 0 <= d) (durations (logged (loop cfg i rs st))).
Proof.
  induction rs as [ | r rs IH ]; intros i st Hstart Hsorted; simpl.
  - destruct (cycle cfg i); constructor.
  - destruct (cycle cfg i) as [ dns_pair | ]; [ | constructor ].
    destruct (iteration cfg dns_pair r st) as [ e lg | st1 lg slept ] eqn:Hit;
      simpl.
    + apply iteration_raises in Hit. destruct Hit as (_ & _ & ->). constructor.
    + apply StronglySorted_inv in Hsorted. destruct Hsorted as [Hsorted Hr].
      destruct (iteration_durations _ _ _ _ _ _ _ Hit) as [Hd Hst1].
      rewrite durations_app. apply Forall_app. split.
      * destruct Hd as [ -> | (s & Hs & ->) ]; [ constructor | ].
        constructor; [ | constructor ].
        specialize (Hstart s Hs). inversion Hstart as [ | ? ? Hle _ ]; subst.
        apply (proj1 (Qle_minus_iff _ _) Hle).
      * apply IH; [ | exact Hsorted ].
        intros s Hs. destruct Hst1 as [ E | [ E | E ] ]; rewrite E in Hs.
        -- discriminate.
        -- specialize (Hstart s Hs). inversion Hstart; assumption.
        -- injection Hs as <-. exact Hr.
Qed.

(** When the clock never goes back from one iteration to the next, no
    reported outage duration is negative. *)
Theorem durations_are_not_negative cfg rs :
  StronglySorted (fun a b => now a <= now b) rs ->
  Forall (fun d => 0 <= d) (durations (logged (main cfg rs))).
Proof.
  intro Hsorted. apply loop_durations_nonnegative; [ | exact Hsorted ].
  intros s Hs. discriminate Hs.
Qed.

Lemma durations_are_not_negative_witness :
  Forall (fun d => 0 <= d)
    (durations (logged (main config [outage_at 3; outage_at 5; answered_at 12]))).
Proof.
  apply (durations_are_not_negative config
           [outage_at 3; outage_at 5; answered_at 12]).
  repeat constructor; intro H; discriminate H.
Defined.

Lemma loop_state_comes_from_readings cfg rs :
  forall i st st',
    final (loop cfg i rs st) = Looping st' ->
    (forall started,
        start_of_failure st' = Some started ->
        start_of_failure st = Some started
        \/ exists r, In r rs /\ now r = started
                     /\ fast_probe_failed (resolved r) = true
                     /\ deep_check cfg (net_now r) = true)
    /\ (forall t,
        last_success st' = Some t ->
        last_success st = Some t
        \/ exists r, In r rs /\ now r = t
                     /\ fast_probe_succeeded (resolved r) = true).
Proof.
  induction rs as [ | r rs IH ]; intros i st st'; simpl.
  - destruct (cycle cfg i); [ | discriminate ].
    intro H. injection H as <-. auto.
  - destruct (cycle cfg i) as [ dns_pair | ]; [ | discriminate ].
    destruct (iteration cfg dns_pair r st) as [ e lg | st1 lg slept ] eqn:Hit;
      simpl; [ discriminate | ].
    intro H. destruct (IH (S i) st1 st' H) as [IHs IHl].
    assert (Hlift : forall (P : readings -> Prop),
               (exists r', In r' rs /\ P r') -> exists r', (r = r' \/ In r' rs) /\ P r')
      by (intros P (r' & Hin & HP); exists r'; auto).
    destruct (iteration_cases _ _ _ _ _ _ _ Hit)
      as (_ & [ (Hf & Hd & _ & -> & _)
              | [ (Hf & Hd & _ & -> & _)
                | [ (Hf & Hd & -> & _) | (Hs & -> & _) ] ] ]);
      simpl in IHs, IHl; split.
    all: try (intros x Hx; destruct (IHs x Hx) as [ E | E ];
              [ first [ left; exact E | discriminate E
                      | injection E as <-; right; exists r; auto ]
              | right; apply (Hlift _ E) ]).
    all: try (intros x Hx; destruct (IHl x Hx) as [ E | E ];
              [ first [ left; exact E | discriminate E
                      | injection E as <-; right; exists r; auto ]
              | right; apply (Hlift _ E) ]).
Qed.

(** The times in the state come from the clock readings of the right
    iterations: a start of an outage is the reading of an iteration whose
    lookup failed and whose deep check confirmed the outage, and
    [last_success] is the reading of an iteration whose lookup was
    answered. *)
Theorem state_comes_from_readings cfg rs st :
  final (main cfg rs) = Looping st ->
  (forall started,
      start_of_failure st = Some started ->
      exists r, In r rs /\ now r = started
                /\ fast_probe_failed (resolved r) = true
                /\ deep_check cfg (net_now r) = true)
  /\ (forall t,
      last_success st = Some t ->
      exists r, In r rs /\ now r = t
                /\ fast_probe_succeeded (resolved r) = true).
Proof.
  intro H.
  destruct (loop_state_comes_from_readings cfg rs 0 initial st H) as [Hs Hl].
  split.
  - intros s E. destruct (Hs s E) as [ E' | E' ]; [ discriminate E' | exact E' ].
  - intros t E. destruct (Hl t E) as [ E' | E' ]; [ discriminate E' | exact E' ].
Qed.

Lemma state_comes_from_readings_witness :
  let rs := [answered_at 1; outage_at 3; outage_at 5] in
  exists r, In r rs /\ now r = 3
            /\ fast_probe_failed (resolved r) = true
            /\ deep_check config (net_now r) = true.
Proof.
  intro rs.
  apply (proj1 (state_comes_from_readings config rs
                  {| start_of_failure := Some 3; last_success := Some 1 |}
                  eq_refl) 3).
  reflexivity.
Defined.

Lemma recoveries_events (log : list log_record) :
  logged_times is_recovery log = logged_times is_recovery (events log).
Proof.
  unfold logged_times, events.
  induction log as [ | x log IH ]; [ reflexivity | ].
  destruct x; simpl; rewrite ?IH; reflexivity.
Qed.

Lemma iteration_recovery_with_duration cfg dns_pair r st st' log slept :
  iteration cfg dns_pair r st = Completed st' log slept ->
  List.length (durations log) = logged_times is_recovery log.
Proof.
  intro Hit. rewrite durations_events, recoveries_events.
  destruct (iteration_cases _ _ _ _ _ _ _ Hit)
    as (_ & [ (_ & _ & _ & _ & ->)
            | [ (_ & _ & _ & _ & ->)
              | [ (_ & _ & _ & ->) | (_ & _ & ->) ] ] ]); try reflexivity.
  destruct (start_of_failure st); [ | reflexivity ].
  destruct (outage_active st); reflexivity.
Qed.

(** Every "Saw recovery" record comes with one "Duration of outage" record:
    whatever [main] meets, its log holds as many of the one as of the
    other. *)
Theorem every_recovery_reports_a_duration cfg rs :
  List.length (durations (logged (main cfg rs)))
  = logged_times is_recovery (logged (main cfg rs)).
Proof.
  unfold main. generalize 0%nat, initial.
  induction rs as [ | r rs IH ]; intros i st; simpl.
  - destruct (cycle cfg i); reflexivity.
  - destruct (cycle cfg i) as [ dns_pair | ]; [ | reflexivity ].
    destruct (iteration cfg dns_pair r st) as [ e lg | st1 lg slept ] eqn:Hit;
      simpl.
    + apply iteration_raises in Hit. destruct Hit as (_ & _ & ->). reflexivity.
    + unfold logged_times in *.
      rewrite durations_app, filter_app, !length_app, IH.
      rewrite (iteration_recovery_with_duration _ _ _ _ _ _ _ Hit).
      reflexivity.
Qed.
